(** * AMD64 architecture support layer (sys_x86.c): shallow embedding

    The C bridge of the Rustux kernel for x86-64 is a collection of small
    functions.  Some are pure functions on machine integers (the canonical
    address test and the two page-table flag translators); the others wrap
    privileged instructions and act on the registers of the calling CPU.

    Machine integers are modelled as [Z]; conversions that can lose bits are
    written out with [u32], [u64] and [to_ssize_t].  Register effects are
    modelled by a small state monad over a record of the registers the file
    touches, together with a log of the privileged instructions executed. *)

From Stdlib Require Import ZArith Lia Bool List.
From stdpp Require Import base tactics numbers functions.

Local Open Scope Z_scope.

(** ** C integer conversions *)

Module CInt.

(** Conversion to an unsigned type of [w] bits. *)
Definition wrap (w x : Z) : Z := x mod 2 ^ w.

Definition u32 (x : Z) : Z := wrap 32 x.
Definition u64 (x : Z) : Z := wrap 64 x.

(** Conversion to a signed type of [w] bits (two's complement, as GCC
    defines the out-of-range case). *)
Definition to_signed (w x : Z) : Z :=
  let y := wrap w x in
  if y <? 2 ^ (w - 1) then y else y - 2 ^ w.

(** [ptrdiff_t] on x86-64. *)
Definition to_ssize_t (x : Z) : Z := to_signed 64 x.

(** A scalar used as a condition: nonzero is true. *)
Definition truthy (x : Z) : bool := negb (x =? 0).

End CInt.

Export CInt.

(** ** Constants of the file *)

Definition X86_MMU_PG_P  : Z := 0x001.
Definition X86_MMU_PG_RW : Z := 0x002.
Definition X86_MMU_PG_U  : Z := 0x004.
Definition X86_MMU_PG_PS : Z := 0x080.

Definition X86_MSR_IA32_PAT      : Z := 0x277.
Definition X86_MSR_IA32_MTRR_CAP : Z := 0x0FE.
Definition X86_MSR_IA32_MTRR_DEF : Z := 0x2FF.

Definition X86_PAT_DEFAULT_VALUE : Z := 0x0007010600070106.

(** ** Address predicates *)

(** bits [63:48] must be all 0 or all 1 *)
Definition sys_x86_is_vaddr_canonical (vaddr : Z) : bool :=
  let high_bits := Z.shiftr vaddr 48 in
  (high_bits =? 0) || (high_bits =? 0xFFFF).

Definition sys_x86_mmu_check_paddr (paddr : Z) : bool :=
  paddr <? Z.shiftl 1 52.

(** ** Page-table flag translator: host MMU *)

Definition sys_x86_page_table_mmu_terminal_flags (level : Z) (flags : Z) : Z :=
  let pte_flags := 0 in
  let pte_flags :=
    if truthy (Z.land flags 0x1) then Z.lor pte_flags X86_MMU_PG_P else pte_flags in
  let pte_flags :=
    if truthy (Z.land flags 0x2) then Z.lor pte_flags X86_MMU_PG_RW else pte_flags in
  let pte_flags :=
    if truthy (Z.land flags 0x4) then Z.lor pte_flags X86_MMU_PG_U else pte_flags in
  pte_flags.

Definition sys_x86_page_table_mmu_intermediate_flags : Z :=
  Z.lor X86_MMU_PG_RW X86_MMU_PG_P.

Definition sys_x86_page_table_mmu_supports_page_size (level : Z) : bool :=
  if level =? 2 then true
  else if level =? 1 then true
  else false.

(** [~X86_MMU_PG_PS] is computed on [int] and then converted to the 64-bit
    unsigned type of [flags]. *)
Definition sys_x86_page_table_mmu_split_flags (level : Z) (flags : Z) : Z :=
  Z.land flags (u64 (Z.lnot X86_MMU_PG_PS)).

Definition sys_x86_page_table_mmu_pt_flags_to_mmu_flags (flags : Z) (level : Z) : Z :=
  let mmu_flags := 0 in
  let mmu_flags :=
    if truthy (Z.land flags X86_MMU_PG_P) then Z.lor mmu_flags 0x1 else mmu_flags in
  let mmu_flags :=
    if truthy (Z.land flags X86_MMU_PG_RW) then Z.lor mmu_flags 0x2 else mmu_flags in
  let mmu_flags :=
    if truthy (Z.land flags X86_MMU_PG_U) then Z.lor mmu_flags 0x4 else mmu_flags in
  mmu_flags.

(** ** Page-table flag translator: EPT *)

Definition sys_x86_page_table_ept_allowed_flags (flags : Z) : bool := true.

Definition sys_x86_page_table_ept_check_paddr (paddr : Z) : bool :=
  sys_x86_mmu_check_paddr paddr.

Definition sys_x86_page_table_ept_check_vaddr (vaddr : Z) : bool :=
  sys_x86_is_vaddr_canonical vaddr.

Definition sys_x86_page_table_ept_supports_page_size (level : Z) : bool :=
  sys_x86_page_table_mmu_supports_page_size level.

Definition sys_x86_page_table_ept_intermediate_flags : Z := 0x7.

Definition sys_x86_page_table_ept_terminal_flags (level : Z) (flags : Z) : Z :=
  let ept_flags := 0x3 in
  let ept_flags :=
    if truthy (Z.land flags 0x4) then Z.lor ept_flags 0x1 else ept_flags in
  ept_flags.

Definition sys_x86_page_table_ept_split_flags (level : Z) (flags : Z) : Z :=
  flags.

Definition sys_x86_page_table_ept_pt_flags_to_mmu_flags (flags : Z) (level : Z) : Z :=
  let mmu_flags := 0 in
  let mmu_flags :=
    if truthy (Z.land flags 0x1) then Z.lor mmu_flags 0x1 else mmu_flags in
  let mmu_flags :=
    if truthy (Z.land flags 0x2) then Z.lor mmu_flags 0x2 else mmu_flags in
  let mmu_flags :=
    if truthy (Z.land flags 0x4) then Z.lor mmu_flags 0x4 else mmu_flags in
  mmu_flags.

(** A portable flag set is a subset of {1,2,4}. *)
Definition portable_flags (F : Z) : Prop := Z.land F 7 = F.

(** ** The CPU as seen by this file *)

(** The four output registers of [cpuid]. *)
Record x86_cpuid_leaf : Type := mk_cpuid_leaf {
  eax : Z;
  ebx : Z;
  ecx : Z;
  edx : Z;
}.

(** Privileged or serializing instructions issued through inline assembly,
    with their register operands. *)
Inductive insn : Type :=
  | Cpuid (a c : Z)
  | Xgetbv (c : Z)
  | Rdmsr (c : Z)
  | Wrmsr (c a d : Z)
  | MovFromCr0
  | MovToCr0 (v : Z).

(** Registers of the calling CPU.  [cpuid_hw] is what the processor answers
    to [cpuid]; [scratch_ecx] is the content of ECX at a point where an asm
    statement does not constrain it; [executed] logs the instructions
    issued so far, oldest first. *)
Record cpu : Type := mk_cpu {
  cr0 : Z;
  xcr : Z → Z;
  msr : Z → Z;
  cpuid_hw : Z → Z → x86_cpuid_leaf;
  scratch_ecx : Z;
  executed : list insn;
}.

Definition set_cr0 (v : Z) (s : cpu) : cpu :=
  mk_cpu v (xcr s) (msr s) (cpuid_hw s) (scratch_ecx s) (executed s).

Definition set_msr (f : Z → Z) (s : cpu) : cpu :=
  mk_cpu (cr0 s) (xcr s) f (cpuid_hw s) (scratch_ecx s) (executed s).

Definition set_executed (l : list insn) (s : cpu) : cpu :=
  mk_cpu (cr0 s) (xcr s) (msr s) (cpuid_hw s) (scratch_ecx s) l.

(** *** State monad over the CPU *)

Definition M (A : Type) : Type := cpu → A * cpu.

#[global] Instance M_ret : MRet M := λ A (x : A) (s : cpu), (x, s).
#[global] Instance M_bind : MBind M :=
  λ A B (f : A → M B) (m : M A) (s : cpu), let '(a, s') := m s in f a s'.

Definition gets {A : Type} (f : cpu → A) : M A := λ s, (f s, s).
Definition modify (f : cpu → cpu) : M unit := λ s, (tt, f s).
Definition issue (i : insn) : M unit :=
  modify (λ s, set_executed (executed s ++ [i]) s).

(** *** Instruction semantics *)

Definition asm_cpuid (a c : Z) : M x86_cpuid_leaf :=
  _ ← issue (Cpuid a c);
  r ← gets (λ s, cpuid_hw s a c);
  mret (mk_cpuid_leaf (u32 (eax r)) (u32 (ebx r)) (u32 (ecx r)) (u32 (edx r))).

(** Returns EDX:EAX as the pair (EAX, EDX). *)
Definition asm_xgetbv (c : Z) : M (Z * Z) :=
  _ ← issue (Xgetbv c);
  v ← gets (λ s, xcr s c);
  mret (u32 v, u32 (Z.shiftr v 32)).

Definition asm_rdmsr (c : Z) : M (Z * Z) :=
  _ ← issue (Rdmsr c);
  v ← gets (λ s, msr s c);
  mret (u32 v, u32 (Z.shiftr v 32)).

Definition asm_wrmsr (c a d : Z) : M unit :=
  _ ← issue (Wrmsr c a d);
  modify (λ s, set_msr (<[c := Z.lor (Z.shiftl d 32) a]> (msr s)) s).

Definition asm_mov_from_cr0 : M Z :=
  _ ← issue MovFromCr0;
  gets cr0.

Definition asm_mov_to_cr0 (v : Z) : M unit :=
  _ ← issue (MovToCr0 v);
  modify (set_cr0 v).

(** *** Assembly utilities *)

Definition rdmsr (msr : Z) : M Z :=
  '(low, high) ← asm_rdmsr msr;
  mret (Z.lor (u64 (Z.shiftl high 32)) low).

Definition wrmsr (msr value : Z) : M unit :=
  let low := u32 (Z.land value 0xFFFFFFFF) in
  let high := u32 (Z.shiftr value 32) in
  asm_wrmsr msr low high.

(** *** Extended register functions *)

(** The first asm statement loads only EAX, so [cpuid] runs with whatever
    ECX holds. *)
Definition sys_x86_extended_register_size : M Z :=
  c ← gets scratch_ecx;
  r ← asm_cpuid 1 c;
  if negb (truthy (Z.land (ecx r) (Z.shiftl 1 26))) then
    mret 512
  else
    '(eax', edx') ← asm_xgetbv 0;
    let xcr0 := Z.lor (u64 (Z.shiftl edx' 32)) eax' in
    let size := 512 in
    let size := if truthy (Z.land xcr0 (Z.shiftl 1 2)) then size + 256 else size in
    mret size.

(** *** Feature detection *)

(** [out] is the content of the structure the pointer designates; the
    function returns its status and the content afterwards. *)
Definition sys_x86_get_cpuid_subleaf (leaf subleaf : Z) (out : x86_cpuid_leaf)
  : M (bool * x86_cpuid_leaf) :=
  if leaf =? 0 then
    mret (false, out)
  else
    r ← asm_cpuid leaf subleaf;
    mret (true, mk_cpuid_leaf (eax r) (ebx r) (ecx r) (edx r)).

Definition sys_x86_serialize : M unit :=
  c ← gets scratch_ecx;
  _ ← asm_cpuid 0 c;
  mret tt.

(** *** MMU initialisation *)

Definition sys_x86_mmu_early_init : M unit :=
  _ ← wrmsr X86_MSR_IA32_PAT X86_PAT_DEFAULT_VALUE;
  cr0 ← asm_mov_from_cr0;
  let cr0 := Z.lor cr0 (Z.shiftl 1 16) in
  asm_mov_to_cr0 cr0.

Definition sys_x86_mmu_percpu_init : M unit :=
  _ ← wrmsr X86_MSR_IA32_PAT X86_PAT_DEFAULT_VALUE;
  mtrr_cap ← rdmsr X86_MSR_IA32_MTRR_CAP;
  if truthy (Z.land mtrr_cap 0x400) then mret tt else mret tt.

(** *** PAT and memory types *)

Definition sys_x86_mmu_mem_type_init : M unit :=
  mtrr_def_type ← rdmsr X86_MSR_IA32_MTRR_DEF;
  if truthy (Z.land mtrr_def_type 0x800) then
    let mtrr_def_type :=
      Z.lor (Z.land mtrr_def_type (u64 (Z.lnot 0xFF))) 0x06 in
    wrmsr X86_MSR_IA32_MTRR_DEF mtrr_def_type
  else mret tt.

Definition sys_x86_pat_sync (targets : Z) : M unit :=
  if targets =? 1 then
    mret tt
  else
    current_pat ← rdmsr X86_MSR_IA32_PAT;
    mret tt.

(** ** User copy *)

(** Memory as the copy sees it: the byte at each address, and the addresses
    that are mapped. *)
Record memory : Type := mk_memory {
  bytes : Z → Z;
  mapped : Z → bool;
}.

(** An access succeeds only at a mapped address that the canonical test of
    this file accepts; at any other address the processor raises a fault,
    which nothing here catches.  Addresses are not taken modulo 2^64. *)
Definition accessible (m : memory) (a : Z) : bool :=
  sys_x86_is_vaddr_canonical a && mapped m a.

Definition store_byte (a v : Z) (m : memory) : memory :=
  mk_memory (<[a := v]> (bytes m)) (mapped m).

(** Copy of [n] bytes, lowest address first; [None] when an access faults,
    in which case the copy does not return. *)
Fixpoint copy_bytes (n : nat) (dst src : Z) (m : memory) : option memory :=
  match n with
  | O => Some m
  | S n' =>
      if accessible m src && accessible m dst then
        copy_bytes n' (dst + 1) (src + 1) (store_byte dst (bytes m src) m)
      else None
  end.

Definition builtin_memcpy (dst src len : Z) (m : memory) : option memory :=
  copy_bytes (Z.to_nat len) dst src m.

(** The value returned and the memory after the copy, or [None] when the
    copy faults. *)
Definition sys_x86_copy_to_or_from_user (dst src len fault_return : Z)
  (m : memory) : option (Z * memory) :=
  match builtin_memcpy dst src len m with
  | Some m' => Some (to_ssize_t len, m')
  | None => None
  end.

(** A memory with the two pages from 0x1000 mapped, whose bytes differ
    between the pages. *)
Definition sample_memory : memory :=
  mk_memory (λ a, a mod 251) (λ a, (0x1000 <=? a) && (a <? 0x3000)).

(** A processor used to run the functions on concrete registers: paging and
    protection enabled in CR0, XCR0 = x87|SSE|AVX, XSAVE reported by leaf 1. *)
Definition sample_cpu : cpu :=
  mk_cpu 0x80000011 (λ _, 0x7) (λ _, 0)
    (λ a _, if a =? 1 then mk_cpuid_leaf 0x000306A9 0 (Z.shiftl 1 26) 0
            else mk_cpuid_leaf 0 0 0 0)
    0 [].

(** ** Per-CPU functions *)

(** The APIC id, a 32-bit unsigned value, is returned as a 32-bit signed
    one. *)
Definition to_int32_t (x : Z) : Z := to_signed 32 x.

Definition sys_x86_apic_id_to_cpu_num (apic_id : Z) : Z :=
  to_int32_t apic_id.

(** ** Control registers CR3 and CR4 *)

(** The functions that reload CR3 or configure CR4 touch nothing else, so
    these two registers and the instructions around them are kept in a
    record of their own, with the same kind of instruction log. *)
Inductive ctl_insn : Type :=
  | MovFromCr3
  | MovToCr3 (v : Z)
  | MovFromCr4
  | MovToCr4 (v : Z)
  | Fninit
  | Invlpg (addr : Z).

Record ctl_regs : Type := mk_ctl_regs {
  cr3 : Z;
  cr4 : Z;
  ctl_executed : list ctl_insn;
}.

Definition MC (A : Type) : Type := ctl_regs → A * ctl_regs.

#[global] Instance MC_ret : MRet MC := λ A (x : A) (s : ctl_regs), (x, s).
#[global] Instance MC_bind : MBind MC :=
  λ A B (f : A → MC B) (m : MC A) (s : ctl_regs), let '(a, s') := m s in f a s'.

Definition ctl_gets {A : Type} (f : ctl_regs → A) : MC A := λ s, (f s, s).
Definition ctl_modify (f : ctl_regs → ctl_regs) : MC unit := λ s, (tt, f s).
Definition ctl_issue (i : ctl_insn) : MC unit :=
  ctl_modify (λ s, mk_ctl_regs (cr3 s) (cr4 s) (ctl_executed s ++ [i])).

Definition asm_mov_from_cr3 : MC Z :=
  _ ← ctl_issue MovFromCr3;
  ctl_gets cr3.

Definition asm_mov_to_cr3 (v : Z) : MC unit :=
  _ ← ctl_issue (MovToCr3 v);
  ctl_modify (λ s, mk_ctl_regs v (cr4 s) (ctl_executed s)).

Definition asm_mov_from_cr4 : MC Z :=
  _ ← ctl_issue MovFromCr4;
  ctl_gets cr4.

Definition asm_mov_to_cr4 (v : Z) : MC unit :=
  _ ← ctl_issue (MovToCr4 v);
  ctl_modify (λ s, mk_ctl_regs (cr3 s) v (ctl_executed s)).

Definition invlpg (addr : Z) : MC unit := ctl_issue (Invlpg addr).

Definition sys_x86_kernel_cr3 : MC Z :=
  cr3 ← asm_mov_from_cr3;
  mret cr3.

(** [(1 << 9) | (1 << 18)] is an [int], converted to the 64-bit type of
    [cr4] for the OR. *)
Definition sys_x86_extended_register_init : MC unit :=
  cr4 ← asm_mov_from_cr4;
  let cr4 := Z.lor cr4 (u64 (Z.lor (Z.shiftl 1 9) (Z.shiftl 1 18))) in
  _ ← asm_mov_to_cr4 cr4;
  ctl_issue Fninit.

Definition sys_x86_tlb_flush_global : MC unit :=
  cr3 ← asm_mov_from_cr3;
  asm_mov_to_cr3 cr3.

Definition sys_x86_tlb_flush_one (vaddr : Z) : MC unit :=
  invlpg vaddr.

Definition sample_ctl_regs : ctl_regs :=
  mk_ctl_regs 0x1000 0x000000A0 [].

(** * Properties *)

(** ** Bit-level facts *)

Section Bits.

Lemma truthy_land_bit (x k : Z) :
  0 ≤ k → truthy (Z.land x (Z.shiftl 1 k)) = Z.testbit x k.
Proof.
  intros Hk. unfold truthy. rewrite Z.shiftl_1_l.
  destruct (Z.testbit x k) eqn:Hb.
  - apply negb_true_iff, Z.eqb_neq. intros H0.
    assert (Hk' : Z.testbit (Z.land x (2 ^ k)) k = true).
    { rewrite Z.land_spec, Hb, Z.pow2_bits_true by lia. reflexivity. }
    rewrite H0, Z.bits_0 in Hk'. discriminate.
  - apply negb_false_iff, Z.eqb_eq, Z.bits_inj'. intros n Hn.
    rewrite Z.land_spec, Z.bits_0, Z.pow2_bits_eqb by lia.
    destruct (Z.eqb_spec k n) as [->|_].
    + rewrite Hb. reflexivity.
    + apply andb_false_r.
Qed.

Lemma u32_testbit (x k : Z) :
  0 ≤ k < 32 → Z.testbit (u32 x) k = Z.testbit x k.
Proof. intros Hk. unfold u32, wrap. apply Z.mod_pow2_bits_low. lia. Qed.

Lemma u64_testbit (x k : Z) :
  0 ≤ k < 64 → Z.testbit (u64 x) k = Z.testbit x k.
Proof. intros Hk. unfold u64, wrap. apply Z.mod_pow2_bits_low. lia. Qed.

(** EDX:EAX put together again has the low bits of the register read. *)
Lemma edx_eax_testbit_low (v k : Z) :
  0 ≤ k < 32 →
  Z.testbit (Z.lor (u64 (Z.shiftl (u32 (Z.shiftr v 32)) 32)) (u32 v)) k
  = Z.testbit v k.
Proof.
  intros Hk.
  rewrite Z.lor_spec, u64_testbit, Z.shiftl_spec_low, u32_testbit by lia.
  reflexivity.
Qed.

Lemma portable_flags_range (F : Z) : portable_flags F → 0 ≤ F < 8.
Proof.
  unfold portable_flags. change 7 with (Z.ones 3).
  rewrite Z.land_ones by lia. intros <-.
  apply Z.mod_pos_bound. reflexivity.
Qed.

Lemma portable_flags_cases (F : Z) :
  portable_flags F →
  F = 0 ∨ F = 1 ∨ F = 2 ∨ F = 3 ∨ F = 4 ∨ F = 5 ∨ F = 6 ∨ F = 7.
Proof. intros H%portable_flags_range. lia. Qed.

End Bits.

(** Case analysis on a portable flag set. *)
Ltac portable_cases H :=
  apply portable_flags_cases in H;
  repeat (destruct H as [H | H]); subst.

(** ** Canonical addresses *)

Lemma canonical_iff_high_bits (v : Z) :
  sys_x86_is_vaddr_canonical v = true ↔
  Z.shiftr v 48 = 0 ∨ Z.shiftr v 48 = 0xFFFF.
Proof.
  unfold sys_x86_is_vaddr_canonical. cbv zeta.
  rewrite orb_true_iff, !Z.eqb_eq. reflexivity.
Qed.

(** On 64-bit values the accepted addresses are the lowest and the highest
    2^48 ones. *)
Lemma canonical_iff_range (v : Z) :
  0 ≤ v < 2 ^ 64 →
  sys_x86_is_vaddr_canonical v = true ↔ v < 2 ^ 48 ∨ 2 ^ 64 - 2 ^ 48 ≤ v.
Proof.
  intros Hv. rewrite canonical_iff_high_bits, Z.shiftr_div_pow2 by lia.
  pose proof (Z.div_mod v (2 ^ 48) ltac:(lia)) as Hdm.
  pose proof (Z.mod_pos_bound v (2 ^ 48) ltac:(lia)) as Hm.
  lia.
Qed.

(** C5, as stated, fails: the address 0x0000800000000000 has bits 63..48
    all zero, so the test accepts it. *)
Lemma canonical_accepts_2p47 :
  sys_x86_is_vaddr_canonical 0x0000800000000000 ≠ false.
Proof. vm_compute. discriminate. Qed.

(** C5 (amended): for every value [v], [sys_x86_is_vaddr_canonical v] is
    true exactly when [v >> 48] is 0 or 0xFFFF; it is true on
    0x00007FFFFFFFFFFF, 0xFFFF800000000000 and 0x0000800000000000, and false
    on 0x0001000000000000. *)
Theorem canonical_spec :
  (∀ v, sys_x86_is_vaddr_canonical v = true ↔
        Z.shiftr v 48 = 0 ∨ Z.shiftr v 48 = 0xFFFF)
  ∧ sys_x86_is_vaddr_canonical 0x00007FFFFFFFFFFF = true
  ∧ sys_x86_is_vaddr_canonical 0xFFFF800000000000 = true
  ∧ sys_x86_is_vaddr_canonical 0x0000800000000000 = true
  ∧ sys_x86_is_vaddr_canonical 0x0001000000000000 = false.
Proof.
  split; [exact canonical_iff_high_bits|].
  repeat split; vm_compute; reflexivity.
Qed.

(** ** Host MMU flag translator *)

Section HostTranslator.

Implicit Types L F A : Z.

Lemma mmu_terminal_level L L' F :
  sys_x86_page_table_mmu_terminal_flags L F
  = sys_x86_page_table_mmu_terminal_flags L' F.
Proof. reflexivity. Qed.

Lemma mmu_decode_level L L' A :
  sys_x86_page_table_mmu_pt_flags_to_mmu_flags A L
  = sys_x86_page_table_mmu_pt_flags_to_mmu_flags A L'.
Proof. reflexivity. Qed.

(** Only the three low bits of the argument are looked at. *)
Lemma mmu_terminal_low_bits L F :
  sys_x86_page_table_mmu_terminal_flags L F
  = sys_x86_page_table_mmu_terminal_flags L (Z.land F 7).
Proof.
  unfold sys_x86_page_table_mmu_terminal_flags.
  rewrite <- !Z.land_assoc. reflexivity.
Qed.

Lemma mmu_terminal_portable L F :
  portable_flags F → sys_x86_page_table_mmu_terminal_flags L F = F.
Proof. intros H. portable_cases H; reflexivity. Qed.

Lemma mmu_decode_portable L F :
  portable_flags F → sys_x86_page_table_mmu_pt_flags_to_mmu_flags F L = F.
Proof. intros H. portable_cases H; reflexivity. Qed.

Lemma land_7_portable F : portable_flags (Z.land F 7).
Proof. unfold portable_flags. rewrite <- Z.land_assoc. reflexivity. Qed.

(** Round trip on any 32-bit argument: the recognised bits come back. *)
Lemma mmu_decode_terminal_any L F :
  sys_x86_page_table_mmu_pt_flags_to_mmu_flags
    (sys_x86_page_table_mmu_terminal_flags L F) L = Z.land F 7.
Proof.
  rewrite mmu_terminal_low_bits.
  rewrite mmu_terminal_portable by apply land_7_portable.
  apply mmu_decode_portable, land_7_portable.
Qed.

Lemma mmu_split_clears_PS L A :
  Z.testbit (sys_x86_page_table_mmu_split_flags L A) 7 = false.
Proof.
  unfold sys_x86_page_table_mmu_split_flags.
  rewrite Z.land_spec. apply andb_false_r.
Qed.

Lemma mmu_supports_page_size_iff L :
  sys_x86_page_table_mmu_supports_page_size L = true ↔ L = 1 ∨ L = 2.
Proof.
  unfold sys_x86_page_table_mmu_supports_page_size.
  destruct (Z.eqb_spec L 2), (Z.eqb_spec L 1); split; intros; try lia;
    first [reflexivity | discriminate].
Qed.

Lemma mmu_check_paddr_iff (p : Z) :
  sys_x86_mmu_check_paddr p = true ↔ p < 2 ^ 52.
Proof.
  unfold sys_x86_mmu_check_paddr. rewrite Z.shiftl_1_l. apply Z.ltb_lt.
Qed.

End HostTranslator.

(** C4: for every portable flag set [F] (a subset of {1,2,4}) and every
    level [L], decoding the host terminal flags of [F] gives [F] back, and
    neither the encoder nor the decoder depends on the level. *)
Theorem mmu_roundtrip (L L' F : Z) :
  portable_flags F →
  sys_x86_page_table_mmu_pt_flags_to_mmu_flags
    (sys_x86_page_table_mmu_terminal_flags L F) L = F
  ∧ sys_x86_page_table_mmu_terminal_flags L F
    = sys_x86_page_table_mmu_terminal_flags L' F
  ∧ (∀ A, sys_x86_page_table_mmu_pt_flags_to_mmu_flags A L
          = sys_x86_page_table_mmu_pt_flags_to_mmu_flags A L').
Proof.
  intros HF. split; [|split].
  - rewrite mmu_decode_terminal_any. exact HF.
  - apply mmu_terminal_level.
  - intros A. apply mmu_decode_level.
Qed.

Lemma mmu_roundtrip_witness :
  portable_flags 5
  ∧ sys_x86_page_table_mmu_pt_flags_to_mmu_flags
      (sys_x86_page_table_mmu_terminal_flags 2 5) 2 = 5.
Proof.
  split; [reflexivity|].
  apply (mmu_roundtrip 2 0 5). reflexivity.
Defined.

(** ** EPT flag translator *)

Section EptTranslator.

Implicit Types L F A : Z.

(** Whatever the portable flags, the encoder answers R|W. *)
Lemma ept_terminal_value L F :
  sys_x86_page_table_ept_terminal_flags L F = 0x3.
Proof.
  unfold sys_x86_page_table_ept_terminal_flags.
  destruct (truthy _); reflexivity.
Qed.

Lemma ept_decode_low_bits L A :
  sys_x86_page_table_ept_pt_flags_to_mmu_flags A L
  = sys_x86_page_table_ept_pt_flags_to_mmu_flags (Z.land A 7) L.
Proof.
  unfold sys_x86_page_table_ept_pt_flags_to_mmu_flags.
  rewrite <- !Z.land_assoc. reflexivity.
Qed.

Lemma ept_decode_portable L A :
  portable_flags A → sys_x86_page_table_ept_pt_flags_to_mmu_flags A L = A.
Proof. intros H. portable_cases H; reflexivity. Qed.

Lemma ept_split_id L A : sys_x86_page_table_ept_split_flags L A = A.
Proof. reflexivity. Qed.

End EptTranslator.

(** C1: on the inputs of Scenario D the EPT encoder returns 0x3 both for the
    portable flags 0x4 and for 0x0: the execute request is ORed in as 0x1,
    which the base R|W already contains, where the scenario expects 0x7. *)
Theorem ept_terminal_scenario_D :
  sys_x86_page_table_ept_terminal_flags 0 0x4 = 0x3
  ∧ sys_x86_page_table_ept_terminal_flags 0 0x0 = 0x3.
Proof. split; reflexivity. Qed.

(** C2, as stated, fails: the empty portable flag set comes back as
    READ|WRITE. *)
Lemma ept_roundtrip_not_exact :
  Z.land
    (sys_x86_page_table_ept_pt_flags_to_mmu_flags
       (sys_x86_page_table_ept_terminal_flags 0 0) 0) 7 ≠ 0.
Proof. vm_compute. discriminate. Qed.

(** C2 (amended): for every portable flag set [F] and level [L], the EPT
    round trip masked to the bits {1,2} gives {1,2}, the R|W base of every
    terminal entry; so it recovers the bits {1,2} of [F] exactly when [F]
    has both of them. *)
Theorem ept_roundtrip_read_write (L F : Z) :
  portable_flags F →
  let back :=
    sys_x86_page_table_ept_pt_flags_to_mmu_flags
      (sys_x86_page_table_ept_terminal_flags L F) L in
  Z.land back 3 = 3 ∧ (Z.land back 3 = Z.land F 3 ↔ Z.land F 3 = 3).
Proof.
  intros _ back. subst back. rewrite ept_terminal_value.
  split; [reflexivity|].
  change (Z.land (sys_x86_page_table_ept_pt_flags_to_mmu_flags 3 L) 3) with 3.
  split; intros H; symmetry; exact H.
Qed.

Lemma ept_roundtrip_read_write_witness :
  portable_flags 3
  ∧ Z.land
      (sys_x86_page_table_ept_pt_flags_to_mmu_flags
         (sys_x86_page_table_ept_terminal_flags 1 3) 1) 3 = Z.land 3 3.
Proof.
  split; [reflexivity|].
  apply (ept_roundtrip_read_write 1 3); reflexivity.
Defined.

(** ** Splitting a large page *)

(** C3, as stated, fails for EPT: the EPT split leaves the page-size bit
    where it is. *)
Lemma ept_split_keeps_PS :
  sys_x86_page_table_ept_split_flags 1
    (Z.lor (sys_x86_page_table_ept_terminal_flags 1 0) X86_MMU_PG_PS)
  ≠ sys_x86_page_table_ept_terminal_flags 1 0.
Proof. vm_compute. discriminate. Qed.

(** C3 (amended): for every level [L] and portable flag set [F], the host
    split of [terminal(L, F) | PS] is [terminal(L, F)]; the EPT split is the
    identity, so the EPT split of [terminal(L, F) | PS] is
    [terminal(L, F) | PS], page-size bit included. *)
Theorem split_after_terminal (L F : Z) :
  portable_flags F →
  sys_x86_page_table_mmu_split_flags L
    (Z.lor (sys_x86_page_table_mmu_terminal_flags L F) X86_MMU_PG_PS)
  = sys_x86_page_table_mmu_terminal_flags L F
  ∧ sys_x86_page_table_ept_split_flags L
      (Z.lor (sys_x86_page_table_ept_terminal_flags L F) X86_MMU_PG_PS)
    = Z.lor (sys_x86_page_table_ept_terminal_flags L F) X86_MMU_PG_PS.
Proof.
  intros HF. split; [|apply ept_split_id].
  rewrite mmu_terminal_portable by exact HF.
  portable_cases HF; reflexivity.
Qed.

Lemma split_after_terminal_witness :
  portable_flags 7
  ∧ sys_x86_page_table_mmu_split_flags 1
      (Z.lor (sys_x86_page_table_mmu_terminal_flags 1 7) X86_MMU_PG_PS)
    = sys_x86_page_table_mmu_terminal_flags 1 7.
Proof.
  split; [reflexivity|].
  apply (split_after_terminal 1 7). reflexivity.
Defined.

(** ** Register state *)

Section RegisterState.

Implicit Types s : cpu.

(** [wrmsr] followed by what the instruction does with EDX:EAX stores the
    whole 64-bit value. *)
Lemma wrmsr_edx_eax (value : Z) :
  0 ≤ value < 2 ^ 64 →
  Z.lor (Z.shiftl (u32 (Z.shiftr value 32)) 32) (u32 (Z.land value 0xFFFFFFFF))
  = value.
Proof.
  intros Hv. apply Z.bits_inj'. intros n Hn.
  rewrite Z.lor_spec.
  change 0xFFFFFFFF with (Z.ones 32).
  destruct (Z.lt_ge_cases n 32) as [Hlt|Hge].
  - rewrite Z.shiftl_spec_low, u32_testbit, Z.land_spec by lia.
    rewrite Z.ones_spec_low by lia. apply andb_true_r.
  - rewrite Z.shiftl_spec by lia.
    unfold u32, wrap.
    rewrite (Z.mod_pow2_bits_high (Z.land _ _)) by lia.
    rewrite orb_false_r.
    destruct (Z.lt_ge_cases n 64) as [Hlt|Hge'].
    + rewrite Z.mod_pow2_bits_low, Z.shiftr_spec by lia.
      f_equal. lia.
    + rewrite Z.mod_pow2_bits_high by lia.
      symmetry. apply Z.bits_above_log2; [lia|].
      destruct (Z.eq_dec value 0) as [->|Hnz]; [simpl; lia|].
      apply Z.log2_lt_pow2; [lia|].
      pose proof (Z.pow_le_mono_r 2 64 n ltac:(lia) Hge'). lia.
Qed.

Lemma wrmsr_run (i value : Z) s :
  0 ≤ value < 2 ^ 64 →
  wrmsr i value s =
  (tt, mk_cpu (cr0 s) (xcr s) (<[i := value]> (msr s)) (cpuid_hw s)
         (scratch_ecx s)
         (executed s ++
            [Wrmsr i (u32 (Z.land value 0xFFFFFFFF)) (u32 (Z.shiftr value 32))])).
Proof.
  intros Hv. unfold wrmsr, asm_wrmsr, issue, modify, mbind, M_bind, set_msr,
    set_executed. cbn [cr0 xcr msr cpuid_hw scratch_ecx executed].
  rewrite wrmsr_edx_eax by exact Hv. reflexivity.
Qed.

(** The state in which [sys_x86_mmu_early_init] leaves the processor. *)
Lemma mmu_early_init_run s :
  sys_x86_mmu_early_init s =
  (tt, mk_cpu (Z.lor (cr0 s) (Z.shiftl 1 16)) (xcr s)
         (<[X86_MSR_IA32_PAT := X86_PAT_DEFAULT_VALUE]> (msr s))
         (cpuid_hw s) (scratch_ecx s)
         (((executed s ++ [Wrmsr 0x277 0x00070106 0x00070106])
             ++ [MovFromCr0])
            ++ [MovToCr0 (Z.lor (cr0 s) (Z.shiftl 1 16))])).
Proof. reflexivity. Qed.

Lemma cr0_set_WP_bits (v i : Z) :
  Z.testbit (Z.lor v (Z.shiftl 1 16)) i = Z.testbit v i || (i =? 16).
Proof.
  rewrite Z.lor_spec, Z.shiftl_1_l, Z.pow2_bits_eqb by lia.
  rewrite (Z.eqb_sym 16 i). reflexivity.
Qed.

Lemma pat_sync_other_targets (targets : Z) s :
  targets ≠ 1 →
  sys_x86_pat_sync targets s
  = (tt, set_executed (executed s ++ [Rdmsr X86_MSR_IA32_PAT]) s).
Proof.
  intros Hne. unfold sys_x86_pat_sync.
  destruct (Z.eqb_spec targets 1) as [?|_]; [contradiction|reflexivity].
Qed.

End RegisterState.

(** C6: from every register state, after [sys_x86_mmu_early_init] CR0 has
    bit 16 (WP) set, the IA32_PAT MSR (index 0x277) holds exactly
    0x0007010600070106, also as read back by [rdmsr], and every CR0 bit other
    than bit 16 is as before. *)
Theorem mmu_early_init_post (s : cpu) :
  let s' := (sys_x86_mmu_early_init s).2 in
  Z.testbit (cr0 s') 16 = true
  ∧ msr s' 0x277 = 0x0007010600070106
  ∧ (rdmsr X86_MSR_IA32_PAT s').1 = 0x0007010600070106
  ∧ (∀ i, i ≠ 16 → Z.testbit (cr0 s') i = Z.testbit (cr0 s) i).
Proof.
  rewrite mmu_early_init_run. cbn [snd cr0 msr].
  split; [|split; [|split]].
  - rewrite cr0_set_WP_bits. apply orb_true_r.
  - apply fn_lookup_insert.
  - unfold rdmsr, asm_rdmsr, issue, modify, gets, mbind, M_bind, mret, M_ret,
      set_executed.
    cbn [fst snd cr0 xcr msr cpuid_hw scratch_ecx executed].
    rewrite fn_lookup_insert. reflexivity.
  - intros i Hi. rewrite cr0_set_WP_bits.
    destruct (Z.eqb_spec i 16) as [?|_]; [contradiction|apply orb_false_r].
Qed.

Lemma mmu_early_init_post_witness :
  Z.testbit (cr0 (sys_x86_mmu_early_init sample_cpu).2) 16 = true
  ∧ Z.testbit (cr0 (sys_x86_mmu_early_init sample_cpu).2) 31
    = Z.testbit (cr0 sample_cpu) 31.
Proof.
  pose proof (mmu_early_init_post sample_cpu) as (Hwp & _ & _ & Hframe).
  split; [exact Hwp|].
  apply Hframe. lia.
Defined.

(** ** CPUID probe *)

(** C7: with leaf 0 the probe returns false, leaves the output structure as
    it was and issues no instruction (the processor state, log included, is
    the one before the call); with any other leaf it issues exactly one
    [cpuid] with the given leaf and subleaf, stores the four registers the
    processor answered in the output structure, and returns true. *)
Theorem get_cpuid_subleaf_spec (leaf subleaf : Z) (out : x86_cpuid_leaf) (s : cpu) :
  (leaf = 0 →
     sys_x86_get_cpuid_subleaf leaf subleaf out s = ((false, out), s))
  ∧ (leaf ≠ 0 →
     let hw := cpuid_hw s leaf subleaf in
     sys_x86_get_cpuid_subleaf leaf subleaf out s
     = ((true, mk_cpuid_leaf (u32 (eax hw)) (u32 (ebx hw))
                             (u32 (ecx hw)) (u32 (edx hw))),
        set_executed (executed s ++ [Cpuid leaf subleaf]) s)).
Proof.
  unfold sys_x86_get_cpuid_subleaf. split.
  - intros ->. reflexivity.
  - intros Hne. destruct (Z.eqb_spec leaf 0) as [?|_]; [contradiction|].
    reflexivity.
Qed.

Lemma get_cpuid_subleaf_spec_witness :
  sys_x86_get_cpuid_subleaf 0 5 (mk_cpuid_leaf 1 2 3 4) sample_cpu
  = ((false, mk_cpuid_leaf 1 2 3 4), sample_cpu)
  ∧ sys_x86_get_cpuid_subleaf 1 0 (mk_cpuid_leaf 1 2 3 4) sample_cpu
    = ((true, mk_cpuid_leaf 0x000306A9 0 0x4000000 0),
       set_executed [Cpuid 1 0] sample_cpu).
Proof.
  split.
  - apply (get_cpuid_subleaf_spec 0 5 (mk_cpuid_leaf 1 2 3 4) sample_cpu).
    reflexivity.
  - apply (get_cpuid_subleaf_spec 1 0 (mk_cpuid_leaf 1 2 3 4) sample_cpu).
    lia.
Defined.

(** ** Extended register area *)

(** C8: for every processor state, [sys_x86_extended_register_size] returns
    512 when leaf 1 of CPUID reports ECX bit 26 (XSAVE) clear; otherwise it
    returns 512 plus 256 exactly when bit 2 (AVX) of XCR0 is set: 768 with
    XSAVE and AVX, 512 without XSAVE. *)
Theorem extended_register_size_spec (s : cpu) :
  let xsave := Z.testbit (ecx (cpuid_hw s 1 (scratch_ecx s))) 26 in
  let avx := Z.testbit (xcr s 0) 2 in
  (sys_x86_extended_register_size s).1
  = if xsave then (if avx then 768 else 512) else 512.
Proof.
  intros xsave avx.
  unfold sys_x86_extended_register_size, asm_cpuid, asm_xgetbv, issue, modify,
    gets, mbind, M_bind, mret, M_ret, set_executed.
  cbn [fst snd cr0 xcr msr cpuid_hw scratch_ecx executed eax ebx ecx edx].
  rewrite truthy_land_bit, u32_testbit by lia. fold xsave.
  destruct xsave; [|reflexivity].
  cbn [negb fst snd cr0 xcr msr cpuid_hw scratch_ecx executed].
  rewrite truthy_land_bit, edx_eax_testbit_low by lia. fold avx.
  destruct avx; reflexivity.
Qed.

(** ** PAT synchronisation *)

(** C9: with [targets] equal to 1, [sys_x86_pat_sync] returns at once: no
    MSR is read or written and nothing else is issued (sending an IPI would
    take a register write), so the processor state, instruction log
    included, is the one before the call. *)
Theorem pat_sync_single_cpu (s : cpu) :
  sys_x86_pat_sync 1 s = (tt, s).
Proof. reflexivity. Qed.

(** ** User copy *)

Section UserCopy.

Implicit Types (m : memory) (n : nat).

Lemma to_ssize_t_small (len : Z) :
  0 ≤ len < 2 ^ 63 → to_ssize_t len = len.
Proof.
  intros H. unfold to_ssize_t, to_signed, wrap. cbv zeta.
  rewrite Z.mod_small by lia.
  destruct (Z.ltb_spec len (2 ^ (64 - 1))) as [_|Hge]; [reflexivity|].
  change (2 ^ (64 - 1)) with (2 ^ 63) in Hge. lia.
Qed.

Lemma to_ssize_t_large (len : Z) :
  2 ^ 63 ≤ len < 2 ^ 64 → to_ssize_t len = len - 2 ^ 64.
Proof.
  intros H. unfold to_ssize_t, to_signed, wrap. cbv zeta.
  rewrite Z.mod_small by lia.
  destruct (Z.ltb_spec len (2 ^ (64 - 1))) as [Hlt|_]; [|reflexivity].
  change (2 ^ (64 - 1)) with (2 ^ 63) in Hlt. lia.
Qed.

(** The addresses the canonical test accepts, as two intervals. *)
Lemma canonical_interval (a : Z) :
  sys_x86_is_vaddr_canonical a = true →
  0 ≤ a < 2 ^ 48 ∨ 2 ^ 64 - 2 ^ 48 ≤ a < 2 ^ 64.
Proof.
  rewrite canonical_iff_high_bits, Z.shiftr_div_pow2 by lia.
  pose proof (Z.div_mod a (2 ^ 48) ltac:(lia)) as Hdm.
  pose proof (Z.mod_pos_bound a (2 ^ 48) ltac:(lia)) as Hm.
  lia.
Qed.

Lemma accessible_store (a v x : Z) m :
  accessible (store_byte a v m) x = accessible m x.
Proof. reflexivity. Qed.

Lemma copy_bytes_step n dst src m :
  copy_bytes (S n) dst src m =
  if accessible m src && accessible m dst then
    copy_bytes n (dst + 1) (src + 1) (store_byte dst (bytes m src) m)
  else None.
Proof. reflexivity. Qed.

(** A copy that returns has found every byte of both regions accessible,
    and leaves the set of mapped addresses as it was. *)
Lemma copy_bytes_accessed n : ∀ dst src m m',
  copy_bytes n dst src m = Some m' →
  mapped m' = mapped m
  ∧ ∀ k, 0 ≤ k < Z.of_nat n →
      accessible m (src + k) = true ∧ accessible m (dst + k) = true.
Proof.
  induction n as [|n IH]; intros dst src m m' Hrun.
  - injection Hrun as <-. split; [reflexivity|]. intros k Hk. lia.
  - rewrite copy_bytes_step in Hrun.
    destruct (accessible m src && accessible m dst) eqn:Hacc; [|discriminate].
    apply andb_true_iff in Hacc as [Hs Hd].
    apply IH in Hrun as [Hmap Hrest]. split; [exact Hmap|].
    intros k Hk. destruct (Z.eq_dec k 0) as [->|Hnz].
    + rewrite !Z.add_0_r. split; assumption.
    + specialize (Hrest (k - 1) ltac:(lia)).
      rewrite !accessible_store in Hrest.
      replace (src + 1 + (k - 1)) with (src + k) in Hrest by lia.
      replace (dst + 1 + (k - 1)) with (dst + k) in Hrest by lia.
      exact Hrest.
Qed.

(** Conversely the copy returns when every byte of both regions is
    accessible. *)
Lemma copy_bytes_returns n : ∀ dst src m,
  (∀ k, 0 ≤ k < Z.of_nat n →
     accessible m (src + k) = true ∧ accessible m (dst + k) = true) →
  ∃ m', copy_bytes n dst src m = Some m'.
Proof.
  induction n as [|n IH]; intros dst src m Hacc.
  - exists m. reflexivity.
  - rewrite copy_bytes_step.
    destruct (Hacc 0 ltac:(lia)) as [Hs Hd]. rewrite !Z.add_0_r in Hs, Hd.
    rewrite Hs, Hd. cbn [andb]. apply IH. intros k Hk.
    rewrite !accessible_store.
    replace (src + 1 + k) with (src + (k + 1)) by lia.
    replace (dst + 1 + k) with (dst + (k + 1)) by lia.
    apply Hacc. lia.
Qed.

(** No region of more than 2^48 bytes is accessible throughout, so a copy
    that returns was not longer than that. *)
Lemma copy_bytes_length n dst src m m' :
  copy_bytes n dst src m = Some m' → Z.of_nat n ≤ 2 ^ 48.
Proof.
  intros Hrun. apply copy_bytes_accessed in Hrun as [_ Hacc].
  destruct (Z.le_gt_cases (Z.of_nat n) (2 ^ 48)) as [Hle|Hgt]; [exact Hle|].
  destruct (Hacc 0 ltac:(lia)) as [H0 _].
  destruct (Hacc (2 ^ 48) ltac:(lia)) as [H1 _].
  apply andb_true_iff in H0 as [H0 _]. apply andb_true_iff in H1 as [H1 _].
  apply canonical_interval in H0, H1. lia.
Qed.

(** Bytes outside the destination region are not written. *)
Lemma copy_bytes_outside n : ∀ dst src m m' a,
  copy_bytes n dst src m = Some m' →
  a < dst ∨ dst + Z.of_nat n ≤ a →
  bytes m' a = bytes m a.
Proof.
  induction n as [|n IH]; intros dst src m m' a Hrun Ha.
  - injection Hrun as <-. reflexivity.
  - rewrite copy_bytes_step in Hrun.
    destruct (accessible m src && accessible m dst); [|discriminate].
    rewrite (IH _ _ _ _ a Hrun) by lia.
    cbn [store_byte bytes]. apply fn_lookup_insert_ne. lia.
Qed.

(** With regions that do not overlap, the destination receives the bytes
    the source had. *)
Lemma copy_bytes_inside n : ∀ dst src m m' i,
  copy_bytes n dst src m = Some m' →
  src + Z.of_nat n ≤ dst ∨ dst + Z.of_nat n ≤ src →
  0 ≤ i < Z.of_nat n →
  bytes m' (dst + i) = bytes m (src + i).
Proof.
  induction n as [|n IH]; intros dst src m m' i Hrun Hdisj Hi; [lia|].
  rewrite copy_bytes_step in Hrun.
  destruct (accessible m src && accessible m dst); [|discriminate].
  destruct (Z.eq_dec i 0) as [->|Hnz].
  - rewrite !Z.add_0_r.
    rewrite (copy_bytes_outside _ _ _ _ _ dst Hrun) by lia.
    cbn [store_byte bytes]. apply fn_lookup_insert.
  - replace (dst + i) with (dst + 1 + (i - 1)) by lia.
    rewrite (IH _ _ _ _ (i - 1) Hrun) by lia.
    cbn [store_byte bytes]. rewrite fn_lookup_insert_ne by lia.
    f_equal. lia.
Qed.

Lemma sample_memory_accessible (a : Z) :
  0x1000 ≤ a < 0x3000 → accessible sample_memory a = true.
Proof.
  intros Ha. unfold accessible, sample_memory. cbn [mapped].
  apply andb_true_iff. split.
  - apply canonical_iff_high_bits. left.
    rewrite Z.shiftr_div_pow2 by lia. apply Z.div_small. lia.
  - apply andb_true_iff. split; [apply Z.leb_le|apply Z.ltb_lt]; lia.
Qed.

End UserCopy.

(** C10: for every [dst], [src], [fault_return] and every 64-bit [len], a
    call that returns, returns exactly [(ssize_t)len], which is [len]
    itself and so never a negative status; the outcome, value returned and
    bytes copied, is the same for any other [fault_return]; and the call
    does return whenever the [len] bytes at [src] and at [dst] are
    accessible. *)
Theorem copy_to_or_from_user_spec (dst src len fault_return fault_return' : Z)
    (m : memory) :
  0 ≤ len < 2 ^ 64 →
  (∀ r m', sys_x86_copy_to_or_from_user dst src len fault_return m
           = Some (r, m') →
     r = to_ssize_t len ∧ r = len ∧ 0 ≤ r)
  ∧ sys_x86_copy_to_or_from_user dst src len fault_return' m
    = sys_x86_copy_to_or_from_user dst src len fault_return m
  ∧ ((∀ k, 0 ≤ k < len →
        accessible m (src + k) = true ∧ accessible m (dst + k) = true) →
     ∃ m', sys_x86_copy_to_or_from_user dst src len fault_return m
           = Some (len, m')).
Proof.
  intros Hlen. unfold sys_x86_copy_to_or_from_user, builtin_memcpy.
  split; [|split; [reflexivity|]].
  - intros r m' Hrun.
    destruct (copy_bytes (Z.to_nat len) dst src m) as [m1|] eqn:Hcopy;
      [|discriminate].
    injection Hrun as <- <-.
    apply copy_bytes_length in Hcopy. rewrite Z2Nat.id in Hcopy by lia.
    rewrite to_ssize_t_small by lia. repeat split; lia.
  - intros Hacc.
    destruct (copy_bytes_returns (Z.to_nat len) dst src m) as [m' Hm'].
    { intros k Hk. apply Hacc. lia. }
    exists m'. rewrite Hm'.
    assert (Hle : len ≤ 2 ^ 48).
    { apply copy_bytes_length in Hm'. lia. }
    rewrite to_ssize_t_small by lia. reflexivity.
Qed.

Lemma copy_to_or_from_user_spec_witness :
  ∃ m', sys_x86_copy_to_or_from_user 0x1000 0x2000 16 0x401000 sample_memory
        = Some (16, m').
Proof.
  assert (Hlen : 0 ≤ 16 < 2 ^ 64) by lia.
  apply (copy_to_or_from_user_spec 0x1000 0x2000 16 0x401000 0
           sample_memory Hlen).
  intros k Hk. split; apply sample_memory_accessible; lia.
Defined.

(** A copy of more than 2^48 bytes, one of 2^63 bytes in particular, runs
    into an address that cannot be accessed and does not return. *)
Lemma copy_to_or_from_user_too_long (dst src len fault_return : Z)
    (m : memory) :
  2 ^ 48 < len →
  sys_x86_copy_to_or_from_user dst src len fault_return m = None.
Proof.
  intros Hlen. unfold sys_x86_copy_to_or_from_user, builtin_memcpy.
  destruct (copy_bytes (Z.to_nat len) dst src m) as [m'|] eqn:Hcopy;
    [|reflexivity].
  apply copy_bytes_length in Hcopy. lia.
Qed.

(** On regions that overlap the bytes are copied lowest address first: here
    the destination starts four bytes into the source, and the first four
    source bytes come back every four bytes. *)
Lemma copy_to_or_from_user_overlap :
  match sys_x86_copy_to_or_from_user 0x1004 0x1000 16 0 sample_memory with
  | Some (r, m1) =>
      r = 16
      ∧ map (bytes m1) [0x1004; 0x1008; 0x100C; 0x1010]
        = repeat (bytes sample_memory 0x1000) 4
  | None => False
  end.
Proof. vm_compute. split; reflexivity. Qed.

(** * Further properties of the file *)

(** ** More bit-level facts *)

Section MoreBits.

Lemma testbit_above_64 (v k : Z) :
  0 ≤ v < 2 ^ 64 → 64 ≤ k → Z.testbit v k = false.
Proof.
  intros Hv Hk. destruct (Z.eq_dec v 0) as [->|Hnz]; [apply Z.bits_0|].
  apply Z.bits_above_log2; [lia|].
  apply Z.log2_lt_pow2; [lia|].
  pose proof (Z.pow_le_mono_r 2 64 k ltac:(lia) Hk). lia.
Qed.

Lemma u32_testbit_high (x k : Z) : 32 ≤ k → Z.testbit (u32 x) k = false.
Proof. intros Hk. unfold u32, wrap. apply Z.mod_pow2_bits_high. lia. Qed.

Lemma u64_testbit_high (x k : Z) : 64 ≤ k → Z.testbit (u64 x) k = false.
Proof. intros Hk. unfold u64, wrap. apply Z.mod_pow2_bits_high. lia. Qed.

Lemma u64_small (v : Z) : 0 ≤ v < 2 ^ 64 → u64 v = v.
Proof. intros Hv. unfold u64, wrap. apply Z.mod_small, Hv. Qed.

(** What [rdmsr] makes of the two halves the instruction returns. *)
Lemma rdmsr_edx_eax (v : Z) :
  Z.lor (u64 (Z.shiftl (u32 (Z.shiftr v 32)) 32)) (u32 v) = u64 v.
Proof.
  apply Z.bits_inj'. intros n Hn. rewrite Z.lor_spec.
  destruct (Z.lt_ge_cases n 32) as [Hlo|Hhi].
  - rewrite !u64_testbit, Z.shiftl_spec_low, u32_testbit by lia. reflexivity.
  - rewrite (u32_testbit_high v) by lia. rewrite orb_false_r.
    destruct (Z.lt_ge_cases n 64) as [Hlt|Hge].
    + rewrite !u64_testbit, Z.shiftl_spec, u32_testbit, Z.shiftr_spec by lia.
      f_equal. lia.
    + rewrite !u64_testbit_high by lia. reflexivity.
Qed.

(** What the [wrmsr] instruction receives from the wrapper, for any value. *)
Lemma wrmsr_edx_eax_any (value : Z) :
  Z.lor (Z.shiftl (u32 (Z.shiftr value 32)) 32) (u32 (Z.land value 0xFFFFFFFF))
  = u64 value.
Proof.
  apply Z.bits_inj'. intros n Hn. rewrite Z.lor_spec.
  change 0xFFFFFFFF with (Z.ones 32).
  destruct (Z.lt_ge_cases n 32) as [Hlo|Hhi].
  - rewrite Z.shiftl_spec_low, u32_testbit, u64_testbit, Z.land_spec by lia.
    rewrite Z.ones_spec_low by lia. apply andb_true_r.
  - rewrite u32_testbit_high by lia. rewrite orb_false_r.
    rewrite Z.shiftl_spec by lia.
    destruct (Z.lt_ge_cases n 64) as [Hlt|Hge].
    + rewrite u32_testbit, u64_testbit, Z.shiftr_spec by lia. f_equal. lia.
    + rewrite u32_testbit_high, u64_testbit_high by lia. reflexivity.
Qed.

Lemma to_signed_32_small (a : Z) : 0 ≤ a < 2 ^ 31 → to_signed 32 a = a.
Proof.
  intros Ha. unfold to_signed, wrap. cbv zeta.
  rewrite Z.mod_small by lia.
  destruct (Z.ltb_spec a (2 ^ (32 - 1))) as [_|Hge]; [reflexivity|].
  change (2 ^ (32 - 1)) with (2 ^ 31) in Hge. lia.
Qed.

Lemma to_signed_32_large (a : Z) :
  2 ^ 31 ≤ a < 2 ^ 32 → to_signed 32 a = a - 2 ^ 32.
Proof.
  intros Ha. unfold to_signed, wrap. cbv zeta.
  rewrite Z.mod_small by lia.
  destruct (Z.ltb_spec a (2 ^ (32 - 1))) as [Hlt|_]; [|reflexivity].
  change (2 ^ (32 - 1)) with (2 ^ 31) in Hlt. lia.
Qed.

End MoreBits.

(** ** Addresses *)

(** X1: on 64-bit values the addresses accepted are exactly the lowest
    2^48 and the highest 2^48 ones. *)
Theorem canonical_64bit_range (v : Z) :
  0 ≤ v < 2 ^ 64 →
  sys_x86_is_vaddr_canonical v = true ↔ v < 2 ^ 48 ∨ 2 ^ 64 - 2 ^ 48 ≤ v.
Proof.
  intros Hv. rewrite canonical_iff_high_bits, Z.shiftr_div_pow2 by lia.
  pose proof (Z.div_mod v (2 ^ 48) ltac:(lia)) as Hdm.
  pose proof (Z.mod_pos_bound v (2 ^ 48) ltac:(lia)) as Hm.
  lia.
Qed.

Lemma canonical_64bit_range_witness :
  (0 ≤ 0xFFFF000000000000 < 2 ^ 64)
  ∧ sys_x86_is_vaddr_canonical 0xFFFF000000000000 = true.
Proof.
  assert (H : 0 ≤ 0xFFFF000000000000 < 2 ^ 64) by lia.
  split; [exact H|].
  apply (canonical_64bit_range 0xFFFF000000000000 H). right. lia.
Defined.

(** X2: The test looks at the address only through its 16 upper bits: two
    64-bit addresses in the same 2^48-aligned block get the same answer. *)
Theorem canonical_ignores_low_bits (base off off' : Z) :
  0 ≤ off < 2 ^ 48 → 0 ≤ off' < 2 ^ 48 →
  sys_x86_is_vaddr_canonical (base * 2 ^ 48 + off)
  = sys_x86_is_vaddr_canonical (base * 2 ^ 48 + off').
Proof.
  intros Ho Ho'. unfold sys_x86_is_vaddr_canonical. cbv zeta.
  rewrite !Z.shiftr_div_pow2 by lia.
  rewrite !(Z.add_comm (base * 2 ^ 48)), !Z.div_add by lia.
  rewrite !Z.div_small by lia. reflexivity.
Qed.

Lemma canonical_ignores_low_bits_witness :
  sys_x86_is_vaddr_canonical (0xFFFF * 2 ^ 48 + 0x1000)
  = sys_x86_is_vaddr_canonical (0xFFFF * 2 ^ 48 + 0).
Proof. apply (canonical_ignores_low_bits 0xFFFF 0x1000 0); lia. Defined.

(** ** Host translator on arbitrary words *)

Section HostTranslatorAny.

Implicit Types L F A : Z.

Lemma mmu_decode_low_bits L A :
  sys_x86_page_table_mmu_pt_flags_to_mmu_flags A L
  = sys_x86_page_table_mmu_pt_flags_to_mmu_flags (Z.land A 7) L.
Proof.
  unfold sys_x86_page_table_mmu_pt_flags_to_mmu_flags,
    X86_MMU_PG_P, X86_MMU_PG_RW, X86_MMU_PG_U.
  rewrite <- !Z.land_assoc. reflexivity.
Qed.

Lemma mmu_terminal_value L F :
  sys_x86_page_table_mmu_terminal_flags L F = Z.land F 7.
Proof.
  rewrite mmu_terminal_low_bits.
  apply mmu_terminal_portable, land_7_portable.
Qed.

Lemma mmu_decode_value L A :
  sys_x86_page_table_mmu_pt_flags_to_mmu_flags A L = Z.land A 7.
Proof.
  rewrite mmu_decode_low_bits.
  apply mmu_decode_portable, land_7_portable.
Qed.

Lemma PS_mask_bit (k : Z) :
  0 ≤ k < 64 →
  Z.testbit (u64 (Z.lnot X86_MMU_PG_PS)) k = negb (k =? 7).
Proof.
  intros Hk. rewrite u64_testbit, Z.lnot_spec by lia.
  unfold X86_MMU_PG_PS. change 0x080 with (2 ^ 7).
  rewrite Z.pow2_bits_eqb, (Z.eqb_sym 7 k) by lia. reflexivity.
Qed.

End HostTranslatorAny.

(** X3: Whatever 32-bit word is passed as portable flags, the host terminal
    flags are its three low bits: no bit outside P|RW|U is ever set, the
    page-size bit in particular. *)
Theorem mmu_terminal_any_flags (L F : Z) :
  sys_x86_page_table_mmu_terminal_flags L F = Z.land F 7
  ∧ Z.land (sys_x86_page_table_mmu_terminal_flags L F) X86_MMU_PG_PS = 0
  ∧ 0 ≤ sys_x86_page_table_mmu_terminal_flags L F ≤ 7.
Proof.
  rewrite mmu_terminal_value. split; [reflexivity|]. split.
  - rewrite <- Z.land_assoc. apply Z.land_0_r.
  - change 7 with (Z.ones 3) at 1 2. rewrite Z.land_ones by lia.
    pose proof (Z.mod_pos_bound F (2 ^ 3) ltac:(lia)). lia.
Qed.

(** X4: The host decoder reads only P, RW and U of a page-table entry, and
    encoding what it decoded gives those three bits back. *)
Theorem mmu_encode_after_decode (L L' A : Z) :
  sys_x86_page_table_mmu_pt_flags_to_mmu_flags A L = Z.land A 7
  ∧ sys_x86_page_table_mmu_terminal_flags L'
      (sys_x86_page_table_mmu_pt_flags_to_mmu_flags A L) = Z.land A 7.
Proof.
  rewrite mmu_decode_value, mmu_terminal_value.
  split; [reflexivity|].
  rewrite <- Z.land_assoc. reflexivity.
Qed.

(** X5: Splitting a 64-bit entry clears the page-size bit, keeps every other
    bit, and splitting again changes nothing. *)
Theorem mmu_split_flags_bits (L A : Z) :
  0 ≤ A < 2 ^ 64 →
  Z.testbit (sys_x86_page_table_mmu_split_flags L A) 7 = false
  ∧ (∀ k, k ≠ 7 →
       Z.testbit (sys_x86_page_table_mmu_split_flags L A) k = Z.testbit A k)
  ∧ sys_x86_page_table_mmu_split_flags L
      (sys_x86_page_table_mmu_split_flags L A)
    = sys_x86_page_table_mmu_split_flags L A.
Proof.
  intros HA. unfold sys_x86_page_table_mmu_split_flags. split; [|split].
  - rewrite Z.land_spec, PS_mask_bit by lia. apply andb_false_r.
  - intros k Hk. rewrite Z.land_spec.
    destruct (Z.lt_ge_cases k 0) as [Hneg|Hpos].
    { rewrite !Z.testbit_neg_r by lia. reflexivity. }
    destruct (Z.lt_ge_cases k 64) as [Hlt|Hge].
    + rewrite PS_mask_bit by lia.
      destruct (Z.eqb_spec k 7) as [?|_]; [contradiction|apply andb_true_r].
    + rewrite (testbit_above_64 A k) by lia. reflexivity.
  - rewrite <- Z.land_assoc, Z.land_diag. reflexivity.
Qed.

Lemma mmu_split_flags_bits_witness :
  Z.testbit (sys_x86_page_table_mmu_split_flags 1 0x80000000000000E7) 7 = false
  ∧ Z.testbit (sys_x86_page_table_mmu_split_flags 1 0x80000000000000E7) 63
    = Z.testbit 0x80000000000000E7 63.
Proof.
  assert (H : 0 ≤ 0x80000000000000E7 < 2 ^ 64) by lia.
  pose proof (mmu_split_flags_bits 1 0x80000000000000E7 H) as (H7 & Hk & _).
  split; [exact H7|]. apply Hk. lia.
Defined.

(** X6: Splitting a large page does not change the permissions the decoder
    reports for it. *)
Theorem mmu_decode_after_split (L L' A : Z) :
  sys_x86_page_table_mmu_pt_flags_to_mmu_flags
    (sys_x86_page_table_mmu_split_flags L A) L'
  = sys_x86_page_table_mmu_pt_flags_to_mmu_flags A L'.
Proof.
  rewrite !mmu_decode_value. unfold sys_x86_page_table_mmu_split_flags.
  rewrite <- Z.land_assoc. reflexivity.
Qed.

(** X7: Large pages are supported at levels 1 and 2 and at no other level, for
    the host tables and for EPT alike. *)
Theorem supports_page_size_levels (L : Z) :
  (sys_x86_page_table_mmu_supports_page_size L = true ↔ L = 1 ∨ L = 2)
  ∧ sys_x86_page_table_ept_supports_page_size L
    = sys_x86_page_table_mmu_supports_page_size L.
Proof.
  split; [|reflexivity].
  unfold sys_x86_page_table_mmu_supports_page_size.
  destruct (Z.eqb_spec L 2), (Z.eqb_spec L 1); split; intros; try lia;
    first [reflexivity | discriminate].
Qed.

(** ** EPT translator on arbitrary words *)

(** X8: The EPT decoder keeps exactly the three low bits of an entry. *)
Theorem ept_decode_any (L A : Z) :
  sys_x86_page_table_ept_pt_flags_to_mmu_flags A L = Z.land A 7.
Proof.
  rewrite ept_decode_low_bits.
  apply ept_decode_portable, land_7_portable.
Qed.

(** X9: The EPT terminal flags do not depend on the arguments: they are 0x3 for
    every level and every flags word, so decoded they read READ|WRITE and
    the bit 0x4 is clear. *)
Theorem ept_terminal_constant (L L' F : Z) :
  sys_x86_page_table_ept_terminal_flags L F = 0x3
  ∧ sys_x86_page_table_ept_pt_flags_to_mmu_flags
      (sys_x86_page_table_ept_terminal_flags L F) L' = 0x3.
Proof. rewrite ept_terminal_value. split; reflexivity. Qed.

(** ** APIC id to CPU number *)

(** X10: On 32-bit APIC ids the mapping is the identity below 2^31, gives the
    negative number [apic_id - 2^32] from 2^31 on, and never sends two ids
    to the same CPU number. *)
Theorem apic_id_to_cpu_num_spec (a b : Z) :
  0 ≤ a < 2 ^ 32 → 0 ≤ b < 2 ^ 32 →
  (a < 2 ^ 31 → sys_x86_apic_id_to_cpu_num a = a)
  ∧ (2 ^ 31 ≤ a → sys_x86_apic_id_to_cpu_num a = a - 2 ^ 32
                  ∧ sys_x86_apic_id_to_cpu_num a < 0)
  ∧ (sys_x86_apic_id_to_cpu_num a = sys_x86_apic_id_to_cpu_num b → a = b).
Proof.
  intros Ha Hb. unfold sys_x86_apic_id_to_cpu_num, to_int32_t.
  split; [|split].
  - intros Hlt. apply to_signed_32_small. lia.
  - intros Hge. rewrite to_signed_32_large by lia. lia.
  - destruct (Z.lt_ge_cases a (2 ^ 31)), (Z.lt_ge_cases b (2 ^ 31));
      rewrite ?(to_signed_32_small a), ?(to_signed_32_large a),
        ?(to_signed_32_small b), ?(to_signed_32_large b) by lia; lia.
Qed.

Lemma apic_id_to_cpu_num_spec_witness :
  sys_x86_apic_id_to_cpu_num 3 = 3
  ∧ sys_x86_apic_id_to_cpu_num 0xFFFFFFFF < 0.
Proof.
  split.
  - apply (apic_id_to_cpu_num_spec 3 0); lia.
  - apply (apic_id_to_cpu_num_spec 0xFFFFFFFF 0); lia.
Defined.

(** ** MSR access *)

Section MsrAccess.

Implicit Types s : cpu.

Lemma rdmsr_run (i : Z) s :
  rdmsr i s = (u64 (msr s i), set_executed (executed s ++ [Rdmsr i]) s).
Proof.
  unfold rdmsr, asm_rdmsr, issue, modify, gets, mbind, M_bind, mret, M_ret,
    set_executed.
  cbn [fst snd cr0 xcr msr cpuid_hw scratch_ecx executed].
  rewrite rdmsr_edx_eax. reflexivity.
Qed.

Lemma wrmsr_run_any (i value : Z) s :
  wrmsr i value s =
  (tt, mk_cpu (cr0 s) (xcr s) (<[i := u64 value]> (msr s)) (cpuid_hw s)
         (scratch_ecx s)
         (executed s ++
            [Wrmsr i (u32 (Z.land value 0xFFFFFFFF)) (u32 (Z.shiftr value 32))])).
Proof.
  unfold wrmsr, asm_wrmsr, issue, modify, mbind, M_bind, set_msr,
    set_executed. cbn [cr0 xcr msr cpuid_hw scratch_ecx executed].
  rewrite wrmsr_edx_eax_any. reflexivity.
Qed.

Lemma mmu_percpu_init_run s :
  sys_x86_mmu_percpu_init s =
  (tt, mk_cpu (cr0 s) (xcr s)
         (<[X86_MSR_IA32_PAT := X86_PAT_DEFAULT_VALUE]> (msr s))
         (cpuid_hw s) (scratch_ecx s)
         ((executed s ++ [Wrmsr 0x277 0x00070106 0x00070106])
            ++ [Rdmsr 0xFE])).
Proof.
  unfold sys_x86_mmu_percpu_init, mbind, M_bind.
  rewrite wrmsr_run_any, rdmsr_run.
  destruct (truthy _); reflexivity.
Qed.

Lemma mmu_mem_type_init_run s :
  sys_x86_mmu_mem_type_init s =
  let s1 := set_executed (executed s ++ [Rdmsr 0x2FF]) s in
  if Z.testbit (msr s 0x2FF) 11 then
    wrmsr 0x2FF
      (Z.lor (Z.land (u64 (msr s 0x2FF)) (u64 (Z.lnot 0xFF))) 0x06) s1
  else (tt, s1).
Proof.
  unfold sys_x86_mmu_mem_type_init, mbind, M_bind.
  rewrite rdmsr_run. change 0x800 with (Z.shiftl 1 11).
  rewrite truthy_land_bit, u64_testbit by lia.
  unfold X86_MSR_IA32_MTRR_DEF.
  destruct (Z.testbit (msr s 0x2FF) 11); reflexivity.
Qed.

(** The default-type word after the rewrite of its low byte. *)
Lemma mtrr_def_low_byte (c : Z) :
  Z.land (u64 (Z.lor (Z.land (u64 c) (u64 (Z.lnot 0xFF))) 0x06)) 0xFF = 0x06.
Proof.
  unfold u64 at 1, wrap. rewrite <- Z.land_ones by lia.
  rewrite <- Z.land_assoc. change (Z.land (Z.ones 64) 0xFF) with 0xFF.
  rewrite Z.land_lor_distr_l, <- Z.land_assoc.
  change (Z.land (u64 (Z.lnot 0xFF)) 0xFF) with 0.
  rewrite Z.land_0_r. reflexivity.
Qed.

Lemma mtrr_def_high_bits (c k : Z) :
  0 ≤ c < 2 ^ 64 → 8 ≤ k →
  Z.testbit (u64 (Z.lor (Z.land (u64 c) (u64 (Z.lnot 0xFF))) 0x06)) k
  = Z.testbit c k.
Proof.
  intros Hc Hk. rewrite (u64_small c) by exact Hc.
  destruct (Z.lt_ge_cases k 64) as [Hlt|Hge].
  - rewrite u64_testbit, Z.lor_spec, Z.land_spec, u64_testbit by lia.
    rewrite Z.lnot_spec by lia. change 0xFF with (Z.ones 8).
    rewrite Z.ones_spec_high by lia.
    rewrite (Z.bits_above_log2 0x06 k) by (simpl; lia).
    rewrite andb_true_r, orb_false_r. reflexivity.
  - rewrite u64_testbit_high, (testbit_above_64 c k) by lia. reflexivity.
Qed.

End MsrAccess.

(** X11: Reading an MSR that holds a 64-bit value returns that value and
    changes no register: only the read is logged. *)
Theorem rdmsr_reads (i : Z) (s : cpu) :
  0 ≤ msr s i < 2 ^ 64 →
  (rdmsr i s).1 = msr s i
  ∧ (rdmsr i s).2 = set_executed (executed s ++ [Rdmsr i]) s.
Proof.
  intros Hv. rewrite rdmsr_run. cbn [fst snd].
  split; [apply u64_small, Hv|reflexivity].
Qed.

Lemma rdmsr_reads_witness :
  (rdmsr 0x277 (sys_x86_mmu_early_init sample_cpu).2).1 = 0x0007010600070106.
Proof.
  apply (rdmsr_reads 0x277 (sys_x86_mmu_early_init sample_cpu).2).
  vm_compute. split; [discriminate|reflexivity].
Defined.

(** X12: A 64-bit value written with [wrmsr] is the value [rdmsr] then reads at
    that index; reads at any other index give what they gave before, and
    CR0 and the XCRs are untouched. *)
Theorem wrmsr_then_rdmsr (i j value : Z) (s : cpu) :
  0 ≤ value < 2 ^ 64 →
  let s1 := (wrmsr i value s).2 in
  (rdmsr i s1).1 = value
  ∧ (j ≠ i → (rdmsr j s1).1 = (rdmsr j s).1)
  ∧ cr0 s1 = cr0 s ∧ xcr s1 = xcr s.
Proof.
  intros Hv s1. subst s1. rewrite wrmsr_run_any, !rdmsr_run.
  cbn [fst snd cr0 xcr msr].
  split; [|split; [|split; reflexivity]].
  - rewrite fn_lookup_insert, (u64_small value) by exact Hv.
    apply u64_small, Hv.
  - intros Hne. rewrite fn_lookup_insert_ne by congruence. reflexivity.
Qed.

Lemma wrmsr_then_rdmsr_witness :
  (rdmsr 0x2FF (wrmsr 0x2FF 0x0000000000000C06 sample_cpu).2).1
  = 0x0000000000000C06.
Proof.
  apply (wrmsr_then_rdmsr 0x2FF 0 0x0000000000000C06 sample_cpu). lia.
Defined.

(** ** MMU initialisation on each CPU *)

(** X13: [sys_x86_mmu_percpu_init] programs IA32_PAT with the default value and
    changes nothing else, whatever IA32_MTRR_CAP holds: every other MSR,
    CR0 (the WP bit is not touched here) and the XCRs are as before, and
    the instructions issued are one [wrmsr] of IA32_PAT followed by one
    [rdmsr] of IA32_MTRR_CAP. *)
Theorem mmu_percpu_init_post (s : cpu) :
  let s' := (sys_x86_mmu_percpu_init s).2 in
  msr s' X86_MSR_IA32_PAT = X86_PAT_DEFAULT_VALUE
  ∧ (∀ i, i ≠ X86_MSR_IA32_PAT → msr s' i = msr s i)
  ∧ cr0 s' = cr0 s
  ∧ xcr s' = xcr s
  ∧ executed s'
    = executed s ++ [Wrmsr X86_MSR_IA32_PAT 0x00070106 0x00070106;
                     Rdmsr X86_MSR_IA32_MTRR_CAP].
Proof.
  rewrite mmu_percpu_init_run. cbn [snd cr0 xcr msr executed].
  split; [apply fn_lookup_insert|].
  split; [intros i Hi; apply fn_lookup_insert_ne; congruence|].
  split; [reflexivity|]. split; [reflexivity|].
  rewrite <- app_assoc. reflexivity.
Qed.

Lemma mmu_percpu_init_post_witness :
  msr (sys_x86_mmu_percpu_init sample_cpu).2 X86_MSR_IA32_MTRR_DEF
  = msr sample_cpu X86_MSR_IA32_MTRR_DEF.
Proof.
  pose proof (mmu_percpu_init_post sample_cpu) as (_ & Hframe & _).
  apply Hframe. discriminate.
Defined.

(** X14: [sys_x86_mmu_early_init] changes no MSR other than IA32_PAT and no XCR,
    and issues exactly three instructions: the [wrmsr] of IA32_PAT, the read
    of CR0 and the write of CR0 with bit 16 added. *)
Theorem mmu_early_init_frame (s : cpu) :
  let s' := (sys_x86_mmu_early_init s).2 in
  (∀ i, i ≠ X86_MSR_IA32_PAT → msr s' i = msr s i)
  ∧ xcr s' = xcr s
  ∧ executed s'
    = executed s ++ [Wrmsr X86_MSR_IA32_PAT 0x00070106 0x00070106;
                     MovFromCr0;
                     MovToCr0 (Z.lor (cr0 s) (Z.shiftl 1 16))].
Proof.
  rewrite mmu_early_init_run. cbn [snd cr0 xcr msr executed].
  split; [intros i Hi; apply fn_lookup_insert_ne; congruence|].
  split; [reflexivity|].
  rewrite <- !app_assoc. reflexivity.
Qed.

Lemma mmu_early_init_frame_witness :
  msr (sys_x86_mmu_early_init sample_cpu).2 X86_MSR_IA32_MTRR_CAP
  = msr sample_cpu X86_MSR_IA32_MTRR_CAP.
Proof.
  pose proof (mmu_early_init_frame sample_cpu) as (Hframe & _).
  apply Hframe. discriminate.
Defined.

(** X15: Running the early initialisation a second time, or the per-CPU one
    after it, leaves CR0 and every MSR as the first run left them. *)
Theorem mmu_init_again (s : cpu) :
  let s1 := (sys_x86_mmu_early_init s).2 in
  let s2 := (sys_x86_mmu_early_init s1).2 in
  let s3 := (sys_x86_mmu_percpu_init s1).2 in
  cr0 s2 = cr0 s1 ∧ (∀ i, msr s2 i = msr s1 i)
  ∧ cr0 s3 = cr0 s1 ∧ (∀ i, msr s3 i = msr s1 i).
Proof.
  intros s1 s2 s3. subst s1 s2 s3.
  rewrite !mmu_early_init_run, mmu_percpu_init_run.
  cbn [snd cr0 xcr msr executed].
  assert (Hmsr : ∀ i,
    <[X86_MSR_IA32_PAT := X86_PAT_DEFAULT_VALUE]>
      (<[X86_MSR_IA32_PAT := X86_PAT_DEFAULT_VALUE]> (msr s)) i
    = <[X86_MSR_IA32_PAT := X86_PAT_DEFAULT_VALUE]> (msr s) i).
  { intros i. destruct (Z.eq_dec i X86_MSR_IA32_PAT) as [->|Hne].
    - rewrite !fn_lookup_insert. reflexivity.
    - rewrite (fn_lookup_insert_ne _ _ i) by congruence. reflexivity. }
  split; [|split; [exact Hmsr|split; [reflexivity|exact Hmsr]]].
  rewrite <- Z.lor_assoc, Z.lor_diag. reflexivity.
Qed.

(** ** MTRR default type *)

(** X16: With the enable bit (0x800) of IA32_MTRR_DEF clear,
    [sys_x86_mmu_mem_type_init] writes nothing: the state afterwards is the
    one before with the single [rdmsr] logged. *)
Theorem mmu_mem_type_init_disabled (s : cpu) :
  Z.testbit (msr s X86_MSR_IA32_MTRR_DEF) 11 = false →
  (sys_x86_mmu_mem_type_init s).2
  = set_executed (executed s ++ [Rdmsr X86_MSR_IA32_MTRR_DEF]) s.
Proof.
  intros Hoff. rewrite mmu_mem_type_init_run. cbv zeta.
  unfold X86_MSR_IA32_MTRR_DEF in Hoff. rewrite Hoff. reflexivity.
Qed.

Lemma mmu_mem_type_init_disabled_witness :
  (sys_x86_mmu_mem_type_init sample_cpu).2
  = set_executed [Rdmsr X86_MSR_IA32_MTRR_DEF] sample_cpu.
Proof. apply (mmu_mem_type_init_disabled sample_cpu). reflexivity. Defined.

(** X17: With the enable bit set in a 64-bit IA32_MTRR_DEF, the function sets
    the low byte of that MSR to 6 (write-back) and keeps its bits from 8
    up, the enable bit among them; no other MSR and no other register
    changes. *)
Theorem mmu_mem_type_init_enabled (s : cpu) :
  0 ≤ msr s X86_MSR_IA32_MTRR_DEF < 2 ^ 64 →
  Z.testbit (msr s X86_MSR_IA32_MTRR_DEF) 11 = true →
  let s' := (sys_x86_mmu_mem_type_init s).2 in
  Z.land (msr s' X86_MSR_IA32_MTRR_DEF) 0xFF = 0x06
  ∧ (∀ k, 8 ≤ k → Z.testbit (msr s' X86_MSR_IA32_MTRR_DEF) k
                  = Z.testbit (msr s X86_MSR_IA32_MTRR_DEF) k)
  ∧ (∀ i, i ≠ X86_MSR_IA32_MTRR_DEF → msr s' i = msr s i)
  ∧ cr0 s' = cr0 s ∧ xcr s' = xcr s.
Proof.
  intros Hc Hon s'. subst s'. unfold X86_MSR_IA32_MTRR_DEF in *.
  rewrite mmu_mem_type_init_run. cbv zeta. rewrite Hon, wrmsr_run_any.
  cbn [snd cr0 xcr msr set_executed].
  split; [|split; [|split; [|split; reflexivity]]].
  - rewrite fn_lookup_insert. apply mtrr_def_low_byte.
  - intros k Hk. rewrite fn_lookup_insert. apply mtrr_def_high_bits; lia.
  - intros i Hi. apply fn_lookup_insert_ne. congruence.
Qed.

Lemma mmu_mem_type_init_enabled_witness :
  Z.land
    (msr (sys_x86_mmu_mem_type_init
            (set_msr (<[0x2FF := 0xC00]> (msr sample_cpu)) sample_cpu)).2
       X86_MSR_IA32_MTRR_DEF) 0xFF = 0x06.
Proof.
  apply (mmu_mem_type_init_enabled
           (set_msr (<[0x2FF := 0xC00]> (msr sample_cpu)) sample_cpu)).
  - vm_compute. split; [discriminate|reflexivity].
  - reflexivity.
Defined.

(** ** PAT synchronisation, any target *)

(** X18: Whatever [targets] is, [sys_x86_pat_sync] changes no register: CR0, the
    MSRs and the XCRs are as before, and it issues nothing or a single
    [rdmsr] of IA32_PAT, never a write. *)
Theorem pat_sync_frame (targets : Z) (s : cpu) :
  let s' := (sys_x86_pat_sync targets s).2 in
  cr0 s' = cr0 s ∧ msr s' = msr s ∧ xcr s' = xcr s
  ∧ executed s'
    = executed s ++ (if targets =? 1 then [] else [Rdmsr X86_MSR_IA32_PAT]).
Proof.
  unfold sys_x86_pat_sync. destruct (targets =? 1).
  - cbn. rewrite app_nil_r. repeat split.
  - unfold mbind, M_bind. rewrite rdmsr_run. cbn. repeat split.
Qed.

(** ** Extended register area, effects *)

Lemma extended_register_size_run (s : cpu) :
  sys_x86_extended_register_size s =
  let c := scratch_ecx s in
  if Z.testbit (ecx (cpuid_hw s 1 c)) 26 then
    (if Z.testbit (xcr s 0) 2 then 768 else 512,
     set_executed ((executed s ++ [Cpuid 1 c]) ++ [Xgetbv 0]) s)
  else
    (512, set_executed (executed s ++ [Cpuid 1 c]) s).
Proof.
  unfold sys_x86_extended_register_size, asm_cpuid, asm_xgetbv, issue, modify,
    gets, mbind, M_bind, mret, M_ret, set_executed.
  cbn [fst snd cr0 xcr msr cpuid_hw scratch_ecx executed eax ebx ecx edx].
  rewrite truthy_land_bit, u32_testbit by lia.
  destruct (Z.testbit (ecx (cpuid_hw s 1 (scratch_ecx s))) 26); [|reflexivity].
  cbn [negb fst snd cr0 xcr msr cpuid_hw scratch_ecx executed].
  rewrite truthy_land_bit, edx_eax_testbit_low by lia.
  destruct (Z.testbit (xcr s 0) 2); reflexivity.
Qed.

(** X19: [sys_x86_extended_register_size] issues [xgetbv] only on a processor
    whose CPUID leaf 1 reports XSAVE: without it the single instruction
    issued is the [cpuid]; with it, the [cpuid] and then [xgetbv] of XCR0. *)
Theorem extended_register_size_instructions (s : cpu) :
  let s' := (sys_x86_extended_register_size s).2 in
  let xsave := Z.testbit (ecx (cpuid_hw s 1 (scratch_ecx s))) 26 in
  executed s'
  = executed s ++ (if xsave then [Cpuid 1 (scratch_ecx s); Xgetbv 0]
                   else [Cpuid 1 (scratch_ecx s)]).
Proof.
  rewrite extended_register_size_run. cbv zeta.
  destruct (Z.testbit _ 26); cbn [snd executed set_executed].
  - rewrite <- app_assoc. reflexivity.
  - reflexivity.
Qed.

(** X20: The size returned is 512 or 768, never anything else, and computing it
    changes no register. *)
Theorem extended_register_size_frame (s : cpu) :
  let r := sys_x86_extended_register_size s in
  (r.1 = 512 ∨ r.1 = 768)
  ∧ cr0 r.2 = cr0 s ∧ msr r.2 = msr s ∧ xcr r.2 = xcr s.
Proof.
  rewrite extended_register_size_run. cbv zeta.
  destruct (Z.testbit _ 26); [destruct (Z.testbit _ 2)|];
    cbn [fst snd cr0 msr xcr set_executed]; auto.
Qed.

(** ** Control registers *)

Section ControlRegisters.

Implicit Types s : ctl_regs.

Lemma extended_register_init_run s :
  sys_x86_extended_register_init s =
  let v := Z.lor (cr4 s) (u64 (Z.lor (Z.shiftl 1 9) (Z.shiftl 1 18))) in
  (tt, mk_ctl_regs (cr3 s) v
         (((ctl_executed s ++ [MovFromCr4]) ++ [MovToCr4 v]) ++ [Fninit])).
Proof. reflexivity. Qed.

Lemma tlb_flush_global_run s :
  sys_x86_tlb_flush_global s =
  (tt, mk_ctl_regs (cr3 s) (cr4 s)
         ((ctl_executed s ++ [MovFromCr3]) ++ [MovToCr3 (cr3 s)])).
Proof. reflexivity. Qed.

Lemma cr4_feature_bits (v k : Z) :
  Z.testbit (Z.lor v (u64 (Z.lor (Z.shiftl 1 9) (Z.shiftl 1 18)))) k
  = Z.testbit v k || (k =? 9) || (k =? 18).
Proof.
  change (u64 (Z.lor (Z.shiftl 1 9) (Z.shiftl 1 18)))
    with (Z.lor (2 ^ 9) (2 ^ 18)).
  rewrite !Z.lor_spec, !Z.pow2_bits_eqb by lia.
  rewrite (Z.eqb_sym 9 k), (Z.eqb_sym 18 k), orb_assoc. reflexivity.
Qed.

End ControlRegisters.

(** X21: After [sys_x86_extended_register_init] CR4 has bits 9 (OSFXSR) and 18
    (OSXSAVE) set and every other bit as before, CR3 is untouched, and
    [fninit] is issued last, after the write to CR4. *)
Theorem extended_register_init_post (s : ctl_regs) :
  let s' := (sys_x86_extended_register_init s).2 in
  Z.testbit (cr4 s') 9 = true
  ∧ Z.testbit (cr4 s') 18 = true
  ∧ (∀ k, k ≠ 9 → k ≠ 18 → Z.testbit (cr4 s') k = Z.testbit (cr4 s) k)
  ∧ cr3 s' = cr3 s
  ∧ ctl_executed s'
    = ctl_executed s ++ [MovFromCr4; MovToCr4 (cr4 s'); Fninit].
Proof.
  rewrite extended_register_init_run. cbv zeta. cbn [snd cr3 cr4 ctl_executed].
  split; [|split; [|split; [|split]]].
  - rewrite cr4_feature_bits. apply orb_true_iff. left. apply orb_true_r.
  - rewrite cr4_feature_bits. apply orb_true_r.
  - intros k H9 H18. rewrite cr4_feature_bits.
    destruct (Z.eqb_spec k 9) as [?|_]; [contradiction|].
    destruct (Z.eqb_spec k 18) as [?|_]; [contradiction|].
    rewrite !orb_false_r. reflexivity.
  - reflexivity.
  - rewrite <- !app_assoc. reflexivity.
Qed.

Lemma extended_register_init_post_witness :
  Z.testbit (cr4 (sys_x86_extended_register_init sample_ctl_regs).2) 9 = true
  ∧ Z.testbit (cr4 (sys_x86_extended_register_init sample_ctl_regs).2) 5
    = Z.testbit (cr4 sample_ctl_regs) 5.
Proof.
  pose proof (extended_register_init_post sample_ctl_regs)
    as (H9 & _ & Hframe & _).
  split; [exact H9|]. apply Hframe; lia.
Defined.

(** X22: Initialising the extended registers twice gives the CR4 of doing it
    once. *)
Theorem extended_register_init_again (s : ctl_regs) :
  let s1 := (sys_x86_extended_register_init s).2 in
  cr4 (sys_x86_extended_register_init s1).2 = cr4 s1.
Proof.
  rewrite (extended_register_init_run s). cbv zeta. cbn [snd].
  rewrite extended_register_init_run. cbv zeta. cbn [snd cr4].
  rewrite <- Z.lor_assoc, Z.lor_diag. reflexivity.
Qed.

(** X23: The global TLB flush writes back to CR3 the value it has just read:
    CR3 and CR4 are unchanged, so [sys_x86_kernel_cr3] returns the same
    root before and after, and the instructions issued are the read and
    the write of CR3 with that value. *)
Theorem tlb_flush_global_keeps_cr3 (s : ctl_regs) :
  let s' := (sys_x86_tlb_flush_global s).2 in
  cr3 s' = cr3 s ∧ cr4 s' = cr4 s
  ∧ (sys_x86_kernel_cr3 s').1 = (sys_x86_kernel_cr3 s).1
  ∧ ctl_executed s' = ctl_executed s ++ [MovFromCr3; MovToCr3 (cr3 s)].
Proof.
  rewrite tlb_flush_global_run. cbn [snd cr3 cr4 ctl_executed].
  split; [reflexivity|]. split; [reflexivity|]. split; [reflexivity|].
  rewrite <- app_assoc. reflexivity.
Qed.

(** ** User copy, edge cases *)

(** X24: A copy of zero bytes returns 0 and leaves the memory as it was; it
    makes no access, so it returns whatever the two addresses are. *)
Theorem copy_to_or_from_user_empty (dst src fault_return : Z) (m : memory) :
  sys_x86_copy_to_or_from_user dst src 0 fault_return m = Some (0, m)
  ∧ ∀ r m', sys_x86_copy_to_or_from_user dst src 0 fault_return m
            = Some (r, m') →
      r = 0 ∧ ∀ a, bytes m' a = bytes m a.
Proof.
  split; [reflexivity|].
  intros r m' Hrun. injection Hrun as <- <-. split; reflexivity.
Qed.

(** X25: When the two regions do not overlap, a copy that returns leaves the
    source bytes as they were, the destination afterwards holds the same
    bytes as the source, and the same copy made a second time returns too
    and changes no byte. *)
Theorem copy_to_or_from_user_disjoint (dst src len fault_return r : Z)
    (m m1 : memory) :
  src + len ≤ dst ∨ dst + len ≤ src →
  sys_x86_copy_to_or_from_user dst src len fault_return m = Some (r, m1) →
  (∀ i, 0 ≤ i < len → bytes m1 (src + i) = bytes m (src + i))
  ∧ (∀ i, 0 ≤ i < len → bytes m1 (dst + i) = bytes m1 (src + i))
  ∧ ∃ m2, sys_x86_copy_to_or_from_user dst src len fault_return m1
          = Some (r, m2)
          ∧ ∀ a, bytes m2 a = bytes m1 a.
Proof.
  intros Hdisj. unfold sys_x86_copy_to_or_from_user, builtin_memcpy.
  destruct (copy_bytes (Z.to_nat len) dst src m) as [m1'|] eqn:Hcopy;
    [|discriminate].
  intros Hrun. injection Hrun as <- <-.
  assert (Hsrc : ∀ i, 0 ≤ i < len → bytes m1' (src + i) = bytes m (src + i)).
  { intros i Hi. apply (copy_bytes_outside _ _ _ _ _ _ Hcopy). lia. }
  assert (Hdst : ∀ i, 0 ≤ i < len → bytes m1' (dst + i) = bytes m (src + i)).
  { intros i Hi. apply (copy_bytes_inside _ _ _ _ _ _ Hcopy); lia. }
  split; [exact Hsrc|]. split.
  { intros i Hi. rewrite Hdst, Hsrc by exact Hi. reflexivity. }
  pose proof (copy_bytes_accessed _ _ _ _ _ Hcopy) as [Hmap Hacc].
  destruct (copy_bytes_returns (Z.to_nat len) dst src m1') as [m2 Hm2].
  { intros k Hk. unfold accessible. rewrite Hmap. apply Hacc, Hk. }
  exists m2. rewrite Hm2. split; [reflexivity|].
  intros a.
  destruct (Z.lt_ge_cases a dst) as [Hlt|Hge];
    [apply (copy_bytes_outside _ _ _ _ _ _ Hm2); lia|].
  destruct (Z.lt_ge_cases a (dst + len)) as [Hin|Hout];
    [|apply (copy_bytes_outside _ _ _ _ _ _ Hm2); lia].
  replace a with (dst + (a - dst)) by lia.
  rewrite (copy_bytes_inside _ _ _ _ _ _ Hm2) by lia.
  rewrite Hsrc, Hdst by lia. reflexivity.
Qed.

Lemma copy_to_or_from_user_disjoint_witness :
  match sys_x86_copy_to_or_from_user 0x1000 0x2000 16 0 sample_memory with
  | Some (r, m1) =>
      bytes sample_memory (0x1000 + 5) ≠ bytes sample_memory (0x2000 + 5)
      ∧ bytes m1 (0x1000 + 5) = bytes m1 (0x2000 + 5)
  | None => False
  end.
Proof.
  destruct (sys_x86_copy_to_or_from_user 0x1000 0x2000 16 0 sample_memory)
    as [[r m1]|] eqn:Hrun.
  - assert (Hd : 0x2000 + 16 ≤ 0x1000 ∨ 0x1000 + 16 ≤ 0x2000) by lia.
    pose proof (copy_to_or_from_user_disjoint 0x1000 0x2000 16 0 r
                  sample_memory m1 Hd Hrun) as (_ & Hsame & _).
    split; [vm_compute; discriminate|]. apply Hsame. lia.
  - vm_compute in Hrun. discriminate.
Defined.
